(** * Verification of the anthropometric consistency checker
    (script.py: DetecteurIncoherenceTaille.valider_donnees and its helpers).

    Modelling choices:
    - Python numbers (int and float) are modelled as exact rationals [Q];
      ages, annotated [int], are [Z] and injected into [Q] when mixed with
      floats.  Float rounding is not modelled.
    - The input dict is a record of optional fields: a key that is absent
      and a key bound to [None] are both [None]; the code never
      distinguishes them (it tests [k not in d or d[k] is None] for the
      required keys and [k in d and d[k]] for the optional ones).
    - The f-string messages are modelled by an inductive type whose
      constructors carry the values interpolated into the message. *)

From Stdlib Require Import ZArith QArith Qminmax Lqa List String Ascii Bool Lia.
Import ListNotations.
Open Scope Q_scope.

(** ** Numbers *)

Definition Qltb (x y : Q) : bool :=
  match Qcompare x y with Lt => true | _ => false end.

Definition Qleb (x y : Q) : bool := Qle_bool x y.

(** Python truthiness of a number: non-zero. *)
Definition truthy (x : Q) : bool := negb (Qeq_bool x 0).

(** [x ** 2] *)
Definition sq (x : Q) : Q := x * x.

Definition Qabs_ (x : Q) : Q := if Qltb x 0 then - x else x.

(** ** Strings: [str.lower] on ASCII characters *)

Definition ascii_lower (c : ascii) : ascii :=
  let n := nat_of_ascii c in
  if (Nat.leb 65 n && Nat.leb n 90)%bool then ascii_of_nat (n + 32) else c.

Fixpoint lower (s : string) : string :=
  match s with
  | EmptyString => EmptyString
  | String c s' => String (ascii_lower c) (lower s')
  end.

(** ** Data model *)

(** The input dictionary [donnees]. *)
Record donnees := mkDonnees {
  age : option Z;
  sexe : option string;
  taille : option Q;
  poids : option Q;
  tour_taille : option Q;
  envergure : option Q;
  longueur_jambe : option Q;
  taille_mere : option Q;
  taille_pere : option Q
}.

(** The messages appended to [erreurs] and [avertissements]; each
    constructor carries the values the f-string interpolates. *)
Inductive message :=
  | ErrChampManquant (champ : string)
  | ErrAge (age : Z)
  | ErrSexe (sexe : string)
  | ErrTaille (taille : Q)
  | ErrPoids (poids : Q)
  | ErrTailleAgeSexe (sexe : string) (age : Z) (taille : Q) (tmin tmax : Z)
  | ErrIMCExtreme (imc poids taille : Q)
  | WarnIMCInhabituel (imc : Q)
  | ErrRatioTourTaille (ratio min_r max_r : Q)
  | ErrRatioEnvergure (ratio min_r max_r : Q)
  | WarnEnvergure (envergure taille : Q)
  | ErrRatioJambe (ratio min_r max_r : Q)
  | ErrPoidsAdulte (taille poids poids_min poids_max : Q)
  | WarnPoidsEnfant (poids poids_attendu : Q)
  | ErrTourTailleEnvergure (tour_taille envergure : Q)
  | ErrJambeEnvergure (longueur_jambe envergure : Q).

Record ValidationResult := mkResult {
  est_valide : bool;
  erreurs : list message;
  avertissements : list message;
  score_coherence : Q
}.

(** The three local variables [erreurs], [avertissements] and [score]
    threaded through [valider_donnees]. *)
Record etat := mkEtat {
  e_erreurs : list message;
  e_avertissements : list message;
  e_score : Q
}.

Definition etat_initial : etat := mkEtat [] [] 100.

(** [erreurs.append(m); score -= d] *)
Definition ajouter_erreur (m : message) (d : Q) (e : etat) : etat :=
  mkEtat (e_erreurs e ++ [m]) (e_avertissements e) (e_score e - d).

(** [avertissements.append(m); score -= d] *)
Definition ajouter_avertissement (m : message) (d : Q) (e : etat) : etat :=
  mkEtat (e_erreurs e) (e_avertissements e ++ [m]) (e_score e - d).

(** ** Static tables (set up in [__init__]) *)

Definition taille_normale : list (string * list ((Z * Z) * (Z * Z))) :=
  [ ("homme"%string,
      [ ((0, 2), (50, 90)); ((2, 5), (85, 115)); ((5, 10), (105, 145));
        ((10, 15), (130, 180)); ((15, 20), (155, 200)); ((20, 150), (150, 210)) ]%Z);
    ("femme"%string,
      [ ((0, 2), (48, 88)); ((2, 5), (83, 112)); ((5, 10), (103, 142));
        ((10, 15), (130, 175)); ((15, 20), (150, 185)); ((20, 150), (145, 195)) ]%Z) ].

Definition ratio_tour_taille_taille : Q * Q := (35 # 100, 55 # 100).
Definition ratio_envergure_taille : Q * Q := (98 # 100, 106 # 100).
Definition ratio_longueur_jambe_taille : Q * Q := (45 # 100, 53 # 100).

(** ** Helpers *)

(** [sexe in self.taille_normale] / [self.taille_normale[sexe]] *)
Fixpoint table_sexe (s : string) (t : list (string * list ((Z * Z) * (Z * Z))))
  : option (list ((Z * Z) * (Z * Z))) :=
  match t with
  | [] => None
  | (k, v) :: t' => if String.eqb k s then Some v else table_sexe s t'
  end.

(** The [for] loop of [_obtenir_plage_taille]: first interval with
    [age_min <= age < age_max]. *)
Fixpoint premiere_plage (a : Z) (l : list ((Z * Z) * (Z * Z))) : option (Z * Z) :=
  match l with
  | [] => None
  | ((amin, amax), plage) :: l' =>
      if (Z.leb amin a && Z.ltb a amax)%bool then Some plage
      else premiere_plage a l'
  end.

Definition _obtenir_plage_taille (a : Z) (s : string) : option (Z * Z) :=
  match table_sexe s taille_normale with
  | None => None
  | Some l => premiere_plage a l
  end.

Definition _estimer_poids_enfant (a : Z) (t : Q) (s : string) : Q :=
  if Z.ltb a 2 then inject_Z (a * 3 + 7)
  else if Z.ltb a 12 then inject_Z (a * 2 + 8)
  else 19 * sq (t / 100).

(** ** [valider_donnees], step by step *)

Definition champs_requis : list string := ["age"; "sexe"; "taille"; "poids"]%string.

Definition est_absent {A} (o : option A) : bool :=
  match o with Some _ => false | None => true end.

(** [champ not in donnees or donnees[champ] is None] *)
Definition champ_manquant (d : donnees) (champ : string) : bool :=
  if String.eqb champ "age" then est_absent ((age d))
  else if String.eqb champ "sexe" then est_absent ((sexe d))
  else if String.eqb champ "taille" then est_absent ((taille d))
  else if String.eqb champ "poids" then est_absent ((poids d))
  else true.

(** Lines 72-76: the loop over the required fields. *)
Definition verifier_champs_requis (d : donnees) (e : etat) : etat :=
  fold_left
    (fun e champ =>
       if champ_manquant d champ then ajouter_erreur (ErrChampManquant champ) 25 e
       else e)
    champs_requis e.

(** Step 1: validation of the base values (lines 88-102). *)
Definition etape1 (a : Z) (s : string) (t p : Q) (e : etat) : etat :=
  let e := if (Z.ltb a 0 || Z.ltb 120 a)%bool
           then ajouter_erreur (ErrAge a) 20 e else e in
  let e := if negb (String.eqb s "homme" || String.eqb s "femme")%bool
           then ajouter_erreur (ErrSexe s) 20 e else e in
  let e := if (Qleb t 0 || Qltb 300 t)%bool
           then ajouter_erreur (ErrTaille t) 20 e else e in
  let e := if (Qleb p 0 || Qltb 500 p)%bool
           then ajouter_erreur (ErrPoids p) 20 e else e in
  e.

(** Step 2: height against age and sex (lines 108-116). *)
Definition etape2 (a : Z) (s : string) (t : Q) (e : etat) : etat :=
  match _obtenir_plage_taille a s with
  | Some (tmin, tmax) =>
      if (Qltb t (inject_Z tmin) || Qltb (inject_Z tmax) t)%bool
      then ajouter_erreur (ErrTailleAgeSexe s a t tmin tmax) 15 e
      else e
  | None => e
  end.

Definition imc_de (t p : Q) : Q := p / sq (t / 100).

(** Step 3: body-mass index (lines 119-130). *)
Definition etape3 (t p : Q) (e : etat) : etat :=
  let imc := imc_de t p in
  if (Qltb imc 10 || Qltb 50 imc)%bool then
    ajouter_erreur (ErrIMCExtreme imc p t) 15 e
  else if (Qltb imc 13 || Qltb 40 imc)%bool then
    ajouter_avertissement (WarnIMCInhabituel imc) 5 e
  else e.

(** Step 4, waist ratio (lines 133-141). *)
Definition etape4_tour_taille (t : Q) (tt : option Q) (e : etat) : etat :=
  match tt with
  | Some v =>
      if truthy v then
        let ratio_tt := v / t in
        let (min_r, max_r) := ratio_tour_taille_taille in
        if (Qltb ratio_tt min_r || Qltb max_r ratio_tt)%bool
        then ajouter_erreur (ErrRatioTourTaille ratio_tt min_r max_r) 10 e
        else e
      else e
  | None => e
  end.

(** Step 4, arm-span ratio with its tolerance band (lines 143-157). *)
Definition etape4_envergure (t : Q) (env : option Q) (e : etat) : etat :=
  match env with
  | Some v =>
      if truthy v then
        let ratio_env := v / t in
        let (min_r, max_r) := ratio_envergure_taille in
        if (Qltb ratio_env (min_r - (1 # 10)) || Qltb (max_r + (1 # 10)) ratio_env)%bool
        then ajouter_erreur (ErrRatioEnvergure ratio_env min_r max_r) 10 e
        else if (Qltb ratio_env min_r || Qltb max_r ratio_env)%bool
        then ajouter_avertissement (WarnEnvergure v t) 3 e
        else e
      else e
  | None => e
  end.

(** Step 4, leg ratio (lines 159-167). *)
Definition etape4_jambe (t : Q) (lj : option Q) (e : etat) : etat :=
  match lj with
  | Some v =>
      if truthy v then
        let ratio_jambe := v / t in
        let (min_r, max_r) := ratio_longueur_jambe_taille in
        if (Qltb ratio_jambe min_r || Qltb max_r ratio_jambe)%bool
        then ajouter_erreur (ErrRatioJambe ratio_jambe min_r max_r) 10 e
        else e
      else e
  | None => e
  end.

(** Step 5: adults (lines 170-182). *)
Definition etape5 (a : Z) (t p : Q) (e : etat) : etat :=
  if Z.leb 18 a then
    let poids_min := 16 * sq (t / 100) in
    let poids_max := 35 * sq (t / 100) in
    if (Qltb p (poids_min * (8 # 10)) || Qltb (poids_max * (12 # 10)) p)%bool
    then ajouter_erreur (ErrPoidsAdulte t p poids_min poids_max) 10 e
    else e
  else e.

(** Step 6: children (lines 185-194). *)
Definition etape6 (a : Z) (s : string) (t p : Q) (e : etat) : etat :=
  if Z.ltb a 18 then
    let poids_attendu := _estimer_poids_enfant a t s in
    if truthy poids_attendu then
      let diff_poids := Qabs_ (p - poids_attendu) / poids_attendu in
      if Qltb (1 # 2) diff_poids
      then ajouter_avertissement (WarnPoidsEnfant p poids_attendu) 5 e
      else e
    else e
  else e.

(** Step 7: waist against arm span (lines 197-204). *)
Definition etape7 (tt env : option Q) (e : etat) : etat :=
  match tt, env with
  | Some v, Some w =>
      if (truthy v && truthy w)%bool then
        if Qltb w v then ajouter_erreur (ErrTourTailleEnvergure v w) 10 e else e
      else e
  | _, _ => e
  end.

(** Step 8: leg length against arm span (lines 207-214). *)
Definition etape8 (lj env : option Q) (e : etat) : etat :=
  match lj, env with
  | Some v, Some w =>
      if (truthy v && truthy w)%bool then
        if Qltb w v then ajouter_erreur (ErrJambeEnvergure v w) 10 e else e
      else e
  | _, _ => e
  end.

Definition a_des_erreurs (e : etat) : bool :=
  match e_erreurs e with [] => false | _ :: _ => true end.

(** The early returns (lines 79 and 105). *)
Definition retour_anticipe (e : etat) : ValidationResult :=
  mkResult false (e_erreurs e) (e_avertissements e) (Qmax 0 (e_score e)).

(** The final return (lines 216-219). *)
Definition retour_final (e : etat) : ValidationResult :=
  let est_valide := match e_erreurs e with [] => true | _ :: _ => false end in
  mkResult est_valide (e_erreurs e) (e_avertissements e) (Qmax 0 (Qmin 100 (e_score e))).

(** Steps 2 to 8, run once the base values are known to be valid. *)
Definition etapes_2_a_8 (d : donnees) (a : Z) (s : string) (t p : Q) (e : etat) : etat :=
  let e := etape2 a s t e in
  let e := etape3 t p e in
  let e := etape4_tour_taille t (tour_taille d) e in
  let e := etape4_envergure t (envergure d) e in
  let e := etape4_jambe t (longueur_jambe d) e in
  let e := etape5 a t p e in
  let e := etape6 a s t p e in
  let e := etape7 (tour_taille d) (envergure d) e in
  let e := etape8 (longueur_jambe d) (envergure d) e in
  e.

Definition valider_donnees (d : donnees) : ValidationResult :=
  let e0 := verifier_champs_requis d etat_initial in
  if a_des_erreurs e0 then retour_anticipe e0 else
  match age d, sexe d, taille d, poids d with
  | Some a, Some s0, Some t, Some p =>
      let s := lower s0 in
      let e1 := etape1 a s t p e0 in
      if a_des_erreurs e1 then retour_anticipe e1 else
      retour_final (etapes_2_a_8 d a s t p e1)
  | _, _, _, _ =>
      (* not reached: a missing required field was reported above *)
      retour_anticipe e0
  end.

(** The records of the examples in [exemple_utilisation]. *)
Definition donnees1 : donnees :=
  mkDonnees (Some 25%Z) (Some "homme"%string) (Some 178) (Some 75)
            (Some 85) (Some 180) None None None.


(** The record of Example 1 with the arm span given as 0. *)
Definition donnees1_envergure_nulle : donnees :=
  mkDonnees (Some 25%Z) (Some "homme"%string) (Some 178) (Some 75)
            (Some 85) (Some 0) None None None.

(** Interval containment used by [_obtenir_plage_taille]. *)
Definition dans_plage (a : Z) (entree : (Z * Z) * (Z * Z)) : bool :=
  let '((amin, amax), _) := entree in (Z.leb amin a && Z.ltb a amax)%bool.

Definition ages_0_150 : list Z := map Z.of_nat (seq 0 150).

(** Concrete records used to instantiate the theorems below. *)
Definition donnees_sans_sexe_ni_poids : donnees :=
  mkDonnees (Some 30%Z) None (Some 170) None None None None None None.

Definition donnees_age_150 : donnees :=
  mkDonnees (Some 150%Z) (Some "Homme"%string) (Some 180) (Some 80)
            (Some 300) (Some 20) (Some 150) None None.

(** The errors Step 1 appends, in order (lines 88-102). *)
Definition erreurs_etape1 (a : Z) (s : string) (t p : Q) : list message :=
  (if (Z.ltb a 0 || Z.ltb 120 a)%bool then [ErrAge a] else []) ++
  (if negb (String.eqb s "homme" || String.eqb s "femme")%bool then [ErrSexe s] else []) ++
  (if (Qleb t 0 || Qltb 300 t)%bool then [ErrTaille t] else []) ++
  (if (Qleb p 0 || Qltb 500 p)%bool then [ErrPoids p] else []).

(** What a run of steps does to the accumulator: it only appends errors
    [l] and warnings [w]; it deducts at most [K], at most [W] when it adds
    no error, nothing when it adds nothing, at least 10 when it adds an
    error and at least 3 when it adds a warning. *)
Definition borne_pas (K W : Q) (e e' : etat) : Prop :=
  exists l w,
    e_erreurs e' = e_erreurs e ++ l /\
    e_avertissements e' = e_avertissements e ++ w /\
    e_score e - K <= e_score e' /\
    (l = [] -> e_score e - W <= e_score e') /\
    (l = [] -> w = [] -> e_score e' == e_score e) /\
    (l <> [] -> e_score e' <= e_score e - 10) /\
    (w <> [] -> e_score e' <= e_score e - 3).

(** The five records of [exemple_utilisation] (donnees1 is above). *)
Definition donnees2 : donnees :=
  mkDonnees (Some 8%Z) (Some "femme"%string) (Some 180) (Some 30) None None None None None.

Definition donnees3 : donnees :=
  mkDonnees (Some 30%Z) (Some "homme"%string) (Some 180) (Some 50) None None None None None.

Definition donnees4 : donnees :=
  mkDonnees (Some 35%Z) (Some "femme"%string) (Some 165) (Some 60)
            None (Some 140) (Some 100) None None.

Definition donnees5 : donnees :=
  mkDonnees (Some 28%Z) (Some "homme"%string) (Some 175) (Some 70)
            (Some 200) (Some 178) (Some 180) None None.


Definition donnees_hors_bornes : donnees :=
  mkDonnees (Some 130%Z) (Some "Autre"%string) (Some 180) (Some 600)
            None None None None None.

(** * Properties *)

Arguments Qltb : simpl never.
Arguments Qleb : simpl never.
Arguments truthy : simpl never.
Arguments sq : simpl never.

(** ** Comparisons *)

Lemma Qltb_true x y : Qltb x y = true <-> x < y.
Proof.
  unfold Qltb; rewrite Qlt_alt.
  destruct (x ?= y); split; congruence.
Qed.

Lemma Qltb_false x y : Qltb x y = false <-> y <= x.
Proof.
  split; intro H.
  - apply Qnot_lt_le; intro L; apply Qltb_true in L; congruence.
  - destruct (Qltb x y) eqn:E; [|reflexivity].
    apply Qltb_true in E; exfalso; exact (Qle_not_lt _ _ H E).
Qed.

Lemma Qleb_true x y : Qleb x y = true <-> x <= y.
Proof. unfold Qleb; apply Qle_bool_iff. Qed.

Lemma Qleb_false x y : Qleb x y = false <-> y < x.
Proof.
  split; intro H.
  - apply Qnot_le_lt; intro L; apply Qleb_true in L; congruence.
  - destruct (Qleb x y) eqn:E; [|reflexivity].
    apply Qleb_true in E; exfalso; exact (Qlt_not_le _ _ H E).
Qed.

Lemma truthy_true x : truthy x = true <-> ~ x == 0.
Proof.
  unfold truthy; rewrite negb_true_iff.
  split; intro H.
  - intro E; apply Qeq_bool_iff in E; congruence.
  - destruct (Qeq_bool x 0) eqn:E; [apply Qeq_bool_iff in E; tauto | reflexivity].
Qed.

(** ** The accumulator *)

Lemma ajouter_erreur_neq_self m d e : ajouter_erreur m d e <> e.
Proof.
  intro H; apply (f_equal (fun e => List.length (e_erreurs e))) in H.
  simpl in H; rewrite List.length_app in H; simpl in H; lia.
Qed.

Lemma ajouter_avertissement_neq_self m d e : ajouter_avertissement m d e <> e.
Proof.
  intro H; apply (f_equal (fun e => List.length (e_avertissements e))) in H.
  simpl in H; rewrite List.length_app in H; simpl in H; lia.
Qed.

Lemma ajouter_erreur_neq_avertissement m d m' d' e :
  ajouter_erreur m d e <> ajouter_avertissement m' d' e.
Proof.
  intro H; apply (f_equal (fun e => List.length (e_erreurs e))) in H.
  simpl in H; rewrite List.length_app in H; simpl in H; lia.
Qed.

(** A step never raises the score. *)
Definition decroit (f : etat -> etat) : Prop := forall e, e_score (f e) <= e_score e.

Lemma ajouter_erreur_score m d e : 0 <= d -> e_score (ajouter_erreur m d e) <= e_score e.
Proof. simpl; intros; lra. Qed.

Lemma ajouter_avertissement_score m d e :
  0 <= d -> e_score (ajouter_avertissement m d e) <= e_score e.
Proof. simpl; intros; lra. Qed.

Ltac casse_branches :=
  repeat match goal with
  | |- context [if ?b then _ else _] => destruct b
  | |- context [match ?o with Some _ => _ | None => _ end] => destruct o
  | |- context [match ?p with (_, _) => _ end] => destruct p
  end.

Ltac prouve_decroit :=
  casse_branches;
  first [ apply Qle_refl
        | apply ajouter_erreur_score; unfold Qle; simpl; lia
        | apply ajouter_avertissement_score; unfold Qle; simpl; lia ].

Lemma etape1_decroit a s t p : decroit (etape1 a s t p).
Proof.
  intro e; unfold etape1.
  casse_branches; simpl; lra.
Qed.

Lemma etape2_decroit a s t : decroit (etape2 a s t).
Proof. intro e; unfold etape2; prouve_decroit. Qed.

Lemma etape3_decroit t p : decroit (etape3 t p).
Proof. intro e; unfold etape3; prouve_decroit. Qed.

Lemma etape4_tour_taille_decroit t o : decroit (etape4_tour_taille t o).
Proof. intro e; unfold etape4_tour_taille, ratio_tour_taille_taille; prouve_decroit. Qed.

Lemma etape4_envergure_decroit t o : decroit (etape4_envergure t o).
Proof. intro e; unfold etape4_envergure, ratio_envergure_taille; prouve_decroit. Qed.

Lemma etape4_jambe_decroit t o : decroit (etape4_jambe t o).
Proof. intro e; unfold etape4_jambe, ratio_longueur_jambe_taille; prouve_decroit. Qed.

Lemma etape5_decroit a t p : decroit (etape5 a t p).
Proof. intro e; unfold etape5; prouve_decroit. Qed.

Lemma etape6_decroit a s t p : decroit (etape6 a s t p).
Proof. intro e; unfold etape6; prouve_decroit. Qed.

Lemma etape7_decroit o o' : decroit (etape7 o o').
Proof. intro e; unfold etape7; prouve_decroit. Qed.

Lemma etape8_decroit o o' : decroit (etape8 o o').
Proof. intro e; unfold etape8; prouve_decroit. Qed.

Lemma etapes_2_a_8_decroit d a s t p : decroit (etapes_2_a_8 d a s t p).
Proof.
  intro e; unfold etapes_2_a_8.
  eapply Qle_trans; [apply etape8_decroit|].
  eapply Qle_trans; [apply etape7_decroit|].
  eapply Qle_trans; [apply etape6_decroit|].
  eapply Qle_trans; [apply etape5_decroit|].
  eapply Qle_trans; [apply etape4_jambe_decroit|].
  eapply Qle_trans; [apply etape4_envergure_decroit|].
  eapply Qle_trans; [apply etape4_tour_taille_decroit|].
  eapply Qle_trans; [apply etape3_decroit|].
  apply etape2_decroit.
Qed.

(** ** The required-field loop *)

Definition manquants (d : donnees) : list string := filter (champ_manquant d) champs_requis.

Lemma fold_champs_requis d l e :
  let e' := fold_left
              (fun e champ =>
                 if champ_manquant d champ then ajouter_erreur (ErrChampManquant champ) 25 e
                 else e) l e in
  e_erreurs e' = e_erreurs e ++ map ErrChampManquant (filter (champ_manquant d) l) /\
  e_avertissements e' = e_avertissements e /\
  e_score e' == e_score e - 25 * inject_Z (Z.of_nat (List.length (filter (champ_manquant d) l))).
Proof.
  revert e; induction l as [|c l IH]; intro e; simpl.
  - rewrite app_nil_r; repeat split; simpl; ring.
  - destruct (champ_manquant d c).
    + destruct (IH (ajouter_erreur (ErrChampManquant c) 25 e)) as (H1 & H2 & H3).
      simpl in H1, H2, H3; repeat split.
      * rewrite H1, <- app_assoc; reflexivity.
      * exact H2.
      * rewrite H3, List.length_cons, Nat2Z.inj_succ, <- Z.add_1_r, inject_Z_plus; simpl; ring.
    + exact (IH e).
Qed.

Lemma verifier_champs_requis_spec d :
  let e0 := verifier_champs_requis d etat_initial in
  e_erreurs e0 = map ErrChampManquant (manquants d) /\
  e_avertissements e0 = [] /\
  e_score e0 == 100 - 25 * inject_Z (Z.of_nat (List.length (manquants d))).
Proof. apply fold_champs_requis. Qed.

Lemma manquants_nil d :
  manquants d = [] ->
  exists a s t p, age d = Some a /\ sexe d = Some s /\ taille d = Some t /\ poids d = Some p.
Proof.
  unfold manquants, champs_requis, champ_manquant; simpl.
  destruct (age d), (sexe d), (taille d), (poids d); simpl; try discriminate.
  intros _; eauto 8.
Qed.

Lemma manquants_length d : (List.length (manquants d) <= 4)%nat.
Proof.
  unfold manquants, champs_requis; simpl.
  repeat match goal with |- context [if ?b then _ else _] => destruct b end; simpl; lia.
Qed.

(** The three return points of [valider_donnees]. *)
Lemma valider_donnees_cas d :
  let e0 := verifier_champs_requis d etat_initial in
  (a_des_erreurs e0 = true /\ valider_donnees d = retour_anticipe e0) \/
  (exists a s0 t p,
      age d = Some a /\ sexe d = Some s0 /\ taille d = Some t /\ poids d = Some p /\
      a_des_erreurs e0 = false /\
      let e1 := etape1 a (lower s0) t p e0 in
      (a_des_erreurs e1 = true /\ valider_donnees d = retour_anticipe e1) \/
      (a_des_erreurs e1 = false /\
       valider_donnees d = retour_final (etapes_2_a_8 d a (lower s0) t p e1))).
Proof.
  intro e0; unfold valider_donnees; fold e0.
  destruct (a_des_erreurs e0) eqn:H0; [left; auto | right].
  destruct (verifier_champs_requis_spec d) as (H1 & _ & _); fold e0 in H1.
  assert (Hm : manquants d = []).
  { unfold a_des_erreurs in H0; rewrite H1 in H0.
    destruct (manquants d); [reflexivity | discriminate]. }
  destruct (manquants_nil d Hm) as (a & s0 & t & p & Ha & Hs & Ht & Hp).
  exists a, s0, t, p; rewrite Ha, Hs, Ht, Hp; repeat split; auto.
  destruct (a_des_erreurs (etape1 a (lower s0) t p e0)); auto.
Qed.

Lemma score_initial_borne d : e_score (verifier_champs_requis d etat_initial) <= 100.
Proof.
  destruct (verifier_champs_requis_spec d) as (_ & _ & H).
  assert (0 <= inject_Z (Z.of_nat (List.length (manquants d)))).
  { change 0 with (inject_Z 0); rewrite <- Zle_Qle; lia. }
  rewrite H; lra.
Qed.

Lemma retour_anticipe_borne e :
  e_score e <= 100 -> 0 <= score_coherence (retour_anticipe e) <= 100.
Proof.
  intro H; simpl; split; [apply Q.le_max_l|].
  apply Q.max_lub; [unfold Qle; simpl; lia | exact H].
Qed.

Lemma retour_final_borne e : 0 <= score_coherence (retour_final e) <= 100.
Proof.
  simpl; split; [apply Q.le_max_l|].
  apply Q.max_lub; [unfold Qle; simpl; lia | apply Q.le_min_l].
Qed.

Lemma ou_ltb_true a b c d : (Qltb a b || Qltb c d)%bool = true <-> a < b \/ c < d.
Proof. rewrite orb_true_iff, !Qltb_true; tauto. Qed.

Lemma ou_ltb_false a b c d : (Qltb a b || Qltb c d)%bool = false <-> ~ (a < b \/ c < d).
Proof.
  rewrite orb_false_iff, !Qltb_false; split.
  - intros [H1 H2] [L | L]; [apply (Qle_not_lt _ _ H1 L) | apply (Qle_not_lt _ _ H2 L)].
  - intro H; split; apply Qnot_lt_le; tauto.
Qed.

(** Two-band checks: a step that appends an error when [c1] holds, else
    a warning when [c2] holds, else does nothing. *)
Lemma deux_bandes (r : etat) e m d m' d' (c1 c2 : Prop) (b1 b2 : bool) :
  (b1 = true <-> c1) -> (b1 = false <-> ~ c1) ->
  (b2 = true <-> c2) -> (b2 = false <-> ~ c2) ->
  r = (if b1 then ajouter_erreur m d e
       else if b2 then ajouter_avertissement m' d' e else e) ->
  (r = ajouter_erreur m d e <-> c1) /\
  (r = ajouter_avertissement m' d' e <-> ~ c1 /\ c2) /\
  ~ (r = ajouter_erreur m d e /\ r = ajouter_avertissement m' d' e).
Proof.
  intros T1 F1 T2 F2 ->.
  destruct b1; [|destruct b2].
  - assert (C : c1) by (apply T1; reflexivity).
    split; [|split].
    + split; [intros _; exact C | intros _; reflexivity].
    + split; [intro H; exfalso; eapply ajouter_erreur_neq_avertissement; exact H
             | intros [N _]; contradiction].
    + intros [_ H]; eapply ajouter_erreur_neq_avertissement; exact H.
  - assert (C : ~ c1) by (apply F1; reflexivity).
    assert (C' : c2) by (apply T2; reflexivity).
    split; [|split].
    + split; [intro H; exfalso; eapply ajouter_erreur_neq_avertissement; symmetry; exact H
             | intro X; contradiction].
    + split; [intros _; split; assumption | intros _; reflexivity].
    + intros [H _]; eapply ajouter_erreur_neq_avertissement; symmetry; exact H.
  - assert (C : ~ c1) by (apply F1; reflexivity).
    assert (C' : ~ c2) by (apply F2; reflexivity).
    split; [|split].
    + split; [intro H; exfalso; eapply ajouter_erreur_neq_self; symmetry; exact H
             | intro X; contradiction].
    + split; [intro H; exfalso; eapply ajouter_avertissement_neq_self; symmetry; exact H
             | intros [_ X]; contradiction].
    + intros [H _]; eapply ajouter_erreur_neq_self; symmetry; exact H.
Qed.

Lemma premiere_plage_filter a l :
  premiere_plage a l = None -> filter (dans_plage a) l = [].
Proof.
  induction l as [|[[amin amax] pl] l IH]; simpl; auto.
  destruct (Z.leb amin a && Z.ltb a amax)%bool; [discriminate | exact IH].
Qed.

Lemma taille_normale_calcul :
  forallb
    (fun s => match table_sexe s taille_normale with
              | Some l => forallb (fun a => Nat.eqb (List.length (filter (dans_plage a) l)) 1)
                                  ages_0_150
              | None => false
              end)
    ["homme"; "femme"]%string = true.
Proof. vm_compute; reflexivity. Qed.

Lemma dans_ages_0_150 a : (0 <= a < 150)%Z -> In a ages_0_150.
Proof.
  intro H; unfold ages_0_150.
  apply in_map_iff; exists (Z.to_nat a); split; [lia|].
  apply in_seq; lia.
Qed.

Ltac q_arith := unfold Qeq, Qlt, Qle; simpl; lia.

(** ** Claims *)

(** C1. At every return point of [valider_donnees] (the two early returns
    and the final one), [est_valide] is true exactly when the list of
    errors is empty. *)
Theorem valider_donnees_est_valide_ssi_sans_erreur d :
  est_valide (valider_donnees d) = true <-> erreurs (valider_donnees d) = [].
Proof.
  destruct (valider_donnees_cas d)
    as [[H R] | (a & s0 & t & p & _ & _ & _ & _ & _ & [[H R] | [_ R]])];
    rewrite R.
  - unfold a_des_erreurs in H; simpl.
    destruct (e_erreurs _); [discriminate | split; discriminate].
  - unfold a_des_erreurs in H; simpl.
    destruct (e_erreurs _); [discriminate | split; discriminate].
  - simpl; destruct (e_erreurs _); split; congruence.
Qed.

(** C2. On every return path the coherence score lies in [0, 100]: the
    early returns clamp at 0 only, and the score, starting at 100, never
    increases. *)
Theorem valider_donnees_score_entre_0_et_100 d :
  0 <= score_coherence (valider_donnees d) <= 100.
Proof.
  destruct (valider_donnees_cas d)
    as [[H R] | (a & s0 & t & p & _ & _ & _ & _ & _ & [[H R] | [_ R]])];
    rewrite R.
  - apply retour_anticipe_borne, score_initial_borne.
  - apply retour_anticipe_borne.
    eapply Qle_trans; [apply etape1_decroit | apply score_initial_borne].
  - apply retour_final_borne.
Qed.

(** C3. When k >= 1 of the required keys age, sexe, taille, poids are
    absent or None, [valider_donnees] returns at once: not valid, exactly
    one error per missing key (in the order of [champs_requis]) and no
    other, no warning, and score max(0, 100 - 25 k). *)
Theorem valider_donnees_champs_manquants d :
  manquants d <> [] ->
  est_valide (valider_donnees d) = false /\
  erreurs (valider_donnees d) = map ErrChampManquant (manquants d) /\
  avertissements (valider_donnees d) = [] /\
  score_coherence (valider_donnees d)
    == Qmax 0 (100 - 25 * inject_Z (Z.of_nat (List.length (manquants d)))).
Proof.
  intro Hm.
  destruct (verifier_champs_requis_spec d) as (H1 & H2 & H3).
  assert (H0 : a_des_erreurs (verifier_champs_requis d etat_initial) = true).
  { unfold a_des_erreurs; rewrite H1; destruct (manquants d); [congruence | reflexivity]. }
  unfold valider_donnees; rewrite H0; simpl.
  repeat split; auto.
  rewrite H3; reflexivity.
Qed.

(** C4. With the four required fields present, sexe, taille and poids
    within the Step-1 bounds and age = 150, [valider_donnees] returns right
    after Step 1: not valid, the single error about the age, no warning,
    score 80, whatever the optional fields hold. *)
Theorem valider_donnees_age_150 d s t p :
  age d = Some 150%Z ->
  sexe d = Some s ->
  lower s = "homme"%string \/ lower s = "femme"%string ->
  taille d = Some t -> 0 < t <= 300 ->
  poids d = Some p -> 0 < p <= 500 ->
  est_valide (valider_donnees d) = false /\
  erreurs (valider_donnees d) = [ErrAge 150] /\
  avertissements (valider_donnees d) = [] /\
  score_coherence (valider_donnees d) == 80.
Proof.
  intros Ha Hs Hsx Ht [Ht0 Ht1] Hp [Hp0 Hp1].
  assert (Hm : manquants d = []).
  { unfold manquants, champs_requis, champ_manquant; simpl.
    rewrite Ha, Hs, Ht, Hp; reflexivity. }
  destruct (verifier_champs_requis_spec d) as (H1 & H2 & H3).
  rewrite Hm in H1, H3; simpl in H3.
  assert (H0 : a_des_erreurs (verifier_champs_requis d etat_initial) = false).
  { unfold a_des_erreurs; rewrite H1; reflexivity. }
  unfold valider_donnees; rewrite H0, Ha, Hs, Ht, Hp.
  assert (Hsx' : (String.eqb (lower s) "homme" || String.eqb (lower s) "femme")%bool = true).
  { destruct Hsx as [E | E]; rewrite E; reflexivity. }
  assert (Et0 : Qleb t 0 = false) by (apply Qleb_false; exact Ht0).
  assert (Et1 : Qltb 300 t = false) by (apply Qltb_false; exact Ht1).
  assert (Ep0 : Qleb p 0 = false) by (apply Qleb_false; exact Hp0).
  assert (Ep1 : Qltb 500 p = false) by (apply Qltb_false; exact Hp1).
  unfold etape1; rewrite Hsx', Et0, Et1, Ep0, Ep1; simpl.
  destruct (verifier_champs_requis d etat_initial) as [er av sc]; simpl in *.
  subst er av; simpl.
  repeat split.
  rewrite H3; reflexivity.
Qed.

(** C5. When the arm span is present and non-zero, with r = envergure /
    taille, the arm-span step appends the ratio error and deducts 10
    exactly when r < 0.98 - 0.10 or r > 1.06 + 0.10, appends the
    "slightly atypical" warning and deducts 3 exactly when r is outside
    [0.98, 1.06] but within that 0.10 tolerance, and never does both. *)
Theorem etape4_envergure_bande_tolerance t v e :
  ~ v == 0 ->
  let r := v / t in
  (etape4_envergure t (Some v) e
     = ajouter_erreur (ErrRatioEnvergure r (98 # 100) (106 # 100)) 10 e
   <-> r < (98 # 100) - (1 # 10) \/ (106 # 100) + (1 # 10) < r) /\
  (etape4_envergure t (Some v) e = ajouter_avertissement (WarnEnvergure v t) 3 e
   <-> ~ (r < (98 # 100) - (1 # 10) \/ (106 # 100) + (1 # 10) < r) /\
       (r < 98 # 100 \/ 106 # 100 < r)) /\
  ~ (etape4_envergure t (Some v) e
       = ajouter_erreur (ErrRatioEnvergure r (98 # 100) (106 # 100)) 10 e /\
     etape4_envergure t (Some v) e = ajouter_avertissement (WarnEnvergure v t) 3 e).
Proof.
  intros Hv r.
  eapply deux_bandes; try (apply ou_ltb_true || apply ou_ltb_false).
  unfold etape4_envergure, ratio_envergure_taille.
  rewrite (proj2 (truthy_true v) Hv).
  reflexivity.
Qed.

(** C6. With imc = poids / (taille / 100)^2, the BMI step appends the
    "extreme BMI" error exactly when imc < 10 or imc > 50, appends the
    "unusual BMI" warning exactly when 10 <= imc <= 50 and (imc < 13 or
    imc > 40), and never both. *)
Theorem etape3_imc_exclusif t p e :
  let imc := imc_de t p in
  (etape3 t p e = ajouter_erreur (ErrIMCExtreme imc p t) 15 e
   <-> imc < 10 \/ 50 < imc) /\
  (etape3 t p e = ajouter_avertissement (WarnIMCInhabituel imc) 5 e
   <-> (10 <= imc /\ imc <= 50) /\ (imc < 13 \/ 40 < imc)) /\
  ~ (etape3 t p e = ajouter_erreur (ErrIMCExtreme imc p t) 15 e /\
     etape3 t p e = ajouter_avertissement (WarnIMCInhabituel imc) 5 e).
Proof.
  intro imc.
  assert (Hb : ~ (imc < 10 \/ 50 < imc) <-> 10 <= imc /\ imc <= 50).
  { split.
    - intro H; split; apply Qnot_lt_le; tauto.
    - intros [H1 H2] [L | L]; [apply (Qle_not_lt _ _ H1 L) | apply (Qle_not_lt _ _ H2 L)]. }
  destruct (deux_bandes (etape3 t p e) e (ErrIMCExtreme imc p t) 15
              (WarnIMCInhabituel imc) 5 (imc < 10 \/ 50 < imc) (imc < 13 \/ 40 < imc)
              (Qltb imc 10 || Qltb 50 imc) (Qltb imc 13 || Qltb 40 imc))
    as (H1 & H2 & H3);
    try (apply ou_ltb_true || apply ou_ltb_false); try reflexivity.
  rewrite <- Hb; auto.
Qed.

(** C7. For each sex of the table, the age intervals are pairwise
    disjoint and cover [0, 150): every age in [0, 150) lies in exactly one
    interval.  Hence for a record passing Step 1 (recognised sex and
    0 <= age <= 120) the lookup [_obtenir_plage_taille] finds a range and
    Step 2 is never skipped. *)
Theorem taille_normale_partition s a :
  s = "homme"%string \/ s = "femme"%string -> (0 <= a < 150)%Z ->
  (exists l, table_sexe s taille_normale = Some l /\
             List.length (filter (dans_plage a) l) = 1%nat) /\
  _obtenir_plage_taille a s <> None.
Proof.
  intros Hs Ha.
  assert (Hin : In s ["homme"; "femme"]%string) by (destruct Hs; subst; simpl; auto).
  pose proof taille_normale_calcul as Hc.
  rewrite forallb_forall in Hc; specialize (Hc s Hin).
  destruct (table_sexe s taille_normale) as [l|] eqn:Et; [|discriminate].
  rewrite forallb_forall in Hc; specialize (Hc a (dans_ages_0_150 a Ha)).
  apply Nat.eqb_eq in Hc.
  split; [eauto|].
  unfold _obtenir_plage_taille; rewrite Et.
  intro Hn; apply premiere_plage_filter in Hn; rewrite Hn in Hc; discriminate.
Qed.

(** C8. For 0 <= age < 18 and 0 < taille <= 300 the child-weight estimate
    is 3 age + 7 below 2, 2 age + 8 from 2 to 11, and 19 (taille/100)^2
    from 12 on; it is strictly positive, so the guard of Step 6 always
    holds and Step 6 always compares the relative deviation. *)
Theorem estimer_poids_enfant_positif a t s p e :
  (0 <= a < 18)%Z -> 0 < t <= 300 ->
  ((a < 2)%Z -> _estimer_poids_enfant a t s == 3 * inject_Z a + 7) /\
  ((2 <= a < 12)%Z -> _estimer_poids_enfant a t s == 2 * inject_Z a + 8) /\
  ((12 <= a)%Z -> _estimer_poids_enfant a t s == 19 * ((t / 100) * (t / 100))) /\
  0 < _estimer_poids_enfant a t s /\
  etape6 a s t p e =
    (let poids_attendu := _estimer_poids_enfant a t s in
     if Qltb (1 # 2) (Qabs_ (p - poids_attendu) / poids_attendu)
     then ajouter_avertissement (WarnPoidsEnfant p poids_attendu) 5 e
     else e).
Proof.
  intros Ha [Ht0 Ht1].
  assert (Hpos : 0 < _estimer_poids_enfant a t s).
  { unfold _estimer_poids_enfant.
    destruct (Z.ltb a 2) eqn:E1; [|destruct (Z.ltb a 12) eqn:E2].
    - unfold Qlt; simpl; lia.
    - unfold Qlt; simpl; lia.
    - assert (H100 : 0 < t / 100).
      { apply Qlt_shift_div_l; [reflexivity | lra]. }
      unfold sq; apply Qmult_lt_0_compat; [reflexivity|].
      apply Qmult_lt_0_compat; exact H100. }
  split; [|split; [|split; [|split]]].
  - intro H; unfold _estimer_poids_enfant.
    replace (Z.ltb a 2) with true by (symmetry; apply Z.ltb_lt; lia).
    unfold Qeq, Qmult, Qplus, inject_Z; cbn [Qnum Qden]; lia.
  - intro H; unfold _estimer_poids_enfant.
    replace (Z.ltb a 2) with false by (symmetry; apply Z.ltb_ge; lia).
    replace (Z.ltb a 12) with true by (symmetry; apply Z.ltb_lt; lia).
    unfold Qeq, Qmult, Qplus, inject_Z; cbn [Qnum Qden]; lia.
  - intro H; unfold _estimer_poids_enfant.
    replace (Z.ltb a 2) with false by (symmetry; apply Z.ltb_ge; lia).
    replace (Z.ltb a 12) with false by (symmetry; apply Z.ltb_ge; lia).
    reflexivity.
  - exact Hpos.
  - unfold etape6.
    replace (Z.ltb a 18) with true by (symmetry; apply Z.ltb_lt; lia).
    replace (truthy (_estimer_poids_enfant a t s)) with true.
    + reflexivity.
    + symmetry; apply truthy_true; intro E; rewrite E in Hpos; discriminate.
Qed.

(** C9. The coherent adult of Example 1, {age: 25, sexe: "homme",
    taille: 178, poids: 75, envergure: 180, tour_taille: 85}, is valid
    with no error, no warning and score 100. *)
Theorem exemple1_coherent :
  valider_donnees donnees1 = mkResult true [] [] 100.
Proof. vm_compute; reflexivity. Qed.

(** C10 (counterexample). Waist 85 and arm span 0 are both present and
    85 > 0, yet no "waist exceeds span" error is reported: the record
    {age: 25, sexe: "homme", taille: 178, poids: 75, tour_taille: 85,
    envergure: 0} is valid with no error at all. *)
Lemma etape7_envergure_nulle_contre_exemple :
  tour_taille donnees1_envergure_nulle = Some 85 /\
  envergure donnees1_envergure_nulle = Some 0 /\
  0 < 85 /\
  erreurs (valider_donnees donnees1_envergure_nulle) = [].
Proof. vm_compute; repeat split; reflexivity. Qed.

(** C10 (amended). When waist (resp. leg length) and arm span are both
    present and non-zero, the cross-check appends its error and deducts 10
    exactly when the waist (resp. the leg length) exceeds the arm span,
    and otherwise leaves the state unchanged; a value of 0 disables the
    check like an absent one. *)
Theorem etapes_7_8_croisees v x w e :
  ~ v == 0 -> ~ x == 0 -> ~ w == 0 ->
  (etape7 (Some v) (Some w) e = ajouter_erreur (ErrTourTailleEnvergure v w) 10 e <-> w < v) /\
  (etape7 (Some v) (Some w) e = e <-> ~ w < v) /\
  (etape8 (Some x) (Some w) e = ajouter_erreur (ErrJambeEnvergure x w) 10 e <-> w < x) /\
  (etape8 (Some x) (Some w) e = e <-> ~ w < x) /\
  (forall y, etape7 (Some y) (Some 0) e = e /\ etape7 (Some 0) (Some y) e = e /\
             etape8 (Some y) (Some 0) e = e /\ etape8 (Some 0) (Some y) e = e).
Proof.
  intros Hv Hx Hw.
  apply truthy_true in Hv, Hx, Hw.
  assert (Z0 : truthy 0 = false) by reflexivity.
  unfold etape7, etape8; rewrite Hv, Hx, Hw; simpl.
  split; [|split; [|split; [|split]]].
  - destruct (Qltb w v) eqn:E.
    + apply Qltb_true in E; split; auto.
    + apply Qltb_false in E; split.
      * intro H; exfalso; eapply ajouter_erreur_neq_self; symmetry; exact H.
      * intro L; exfalso; exact (Qle_not_lt _ _ E L).
  - destruct (Qltb w v) eqn:E.
    + apply Qltb_true in E; split.
      * intro H; exfalso; eapply ajouter_erreur_neq_self; exact H.
      * intro N; contradiction.
    + apply Qltb_false in E; split; auto.
      intros _ L; exact (Qle_not_lt _ _ E L).
  - destruct (Qltb w x) eqn:E.
    + apply Qltb_true in E; split; auto.
    + apply Qltb_false in E; split.
      * intro H; exfalso; eapply ajouter_erreur_neq_self; symmetry; exact H.
      * intro L; exfalso; exact (Qle_not_lt _ _ E L).
  - destruct (Qltb w x) eqn:E.
    + apply Qltb_true in E; split.
      * intro H; exfalso; eapply ajouter_erreur_neq_self; exact H.
      * intro N; contradiction.
    + apply Qltb_false in E; split; auto.
      intros _ L; exact (Qle_not_lt _ _ E L).
  - intro y; rewrite Z0, !andb_false_r; simpl; auto.
Qed.

(** ** The theorems instantiated at concrete inputs *)

Lemma valider_donnees_champs_manquants_witness :
  erreurs (valider_donnees donnees_sans_sexe_ni_poids)
    = [ErrChampManquant "sexe"; ErrChampManquant "poids"]%string /\
  score_coherence (valider_donnees donnees_sans_sexe_ni_poids) == 50.
Proof.
  destruct (valider_donnees_champs_manquants donnees_sans_sexe_ni_poids)
    as (_ & H2 & _ & H4); [vm_compute; discriminate|].
  split; [exact H2 | rewrite H4; vm_compute; reflexivity].
Defined.

Lemma valider_donnees_age_150_witness :
  erreurs (valider_donnees donnees_age_150) = [ErrAge 150] /\
  score_coherence (valider_donnees donnees_age_150) == 80.
Proof.
  destruct (valider_donnees_age_150 donnees_age_150 "Homme"%string 180 80)
    as (_ & H2 & _ & H4);
    [reflexivity | reflexivity | left; reflexivity | reflexivity
    | split; q_arith | reflexivity | split; q_arith |].
  split; assumption.
Defined.

Lemma etape4_envergure_bande_tolerance_witness :
  etape4_envergure 178 (Some 150) etat_initial
    = ajouter_erreur (ErrRatioEnvergure (150 / 178) (98 # 100) (106 # 100)) 10 etat_initial.
Proof.
  apply (etape4_envergure_bande_tolerance 178 150 etat_initial); [q_arith|].
  left; q_arith.
Defined.

Lemma taille_normale_partition_witness :
  _obtenir_plage_taille 120 "femme"%string <> None.
Proof.
  apply (taille_normale_partition "femme"%string 120); [right; reflexivity | lia].
Defined.

Lemma estimer_poids_enfant_positif_witness :
  0 < _estimer_poids_enfant 14 160 "homme"%string.
Proof.
  apply (estimer_poids_enfant_positif 14 160 "homme"%string 40 etat_initial);
    [lia | split; q_arith].
Defined.

Lemma etapes_7_8_croisees_witness :
  etape7 (Some 200) (Some 178) etat_initial
    = ajouter_erreur (ErrTourTailleEnvergure 200 178) 10 etat_initial.
Proof.
  apply (etapes_7_8_croisees 200 180 178 etat_initial); [q_arith | q_arith | q_arith |].
  q_arith.
Defined.

(** ** Further properties of [valider_donnees] *)

Lemma borne_pas_refl K W e : 0 <= K -> 0 <= W -> borne_pas K W e e.
Proof.
  intros HK HW; exists [], []; rewrite !app_nil_r.
  repeat split; intros; try lra; congruence.
Qed.

Lemma borne_pas_err K W m d e :
  10 <= d -> d <= K -> borne_pas K W e (ajouter_erreur m d e).
Proof.
  intros H1 H2; exists [m], []; simpl; rewrite app_nil_r.
  repeat split; intros; try lra; congruence.
Qed.

Lemma borne_pas_warn K W m d e :
  3 <= d -> d <= W -> d <= K -> borne_pas K W e (ajouter_avertissement m d e).
Proof.
  intros H1 H2 H3; exists [], [m]; simpl; rewrite app_nil_r.
  repeat split; intros; try lra; congruence.
Qed.

Lemma borne_pas_mono K W K' W' e e' :
  K <= K' -> W <= W' -> borne_pas K W e e' -> borne_pas K' W' e e'.
Proof.
  intros HK HW (l & w & H1 & H2 & H3 & H4 & H5 & H6 & H7).
  exists l, w; repeat split; auto; try lra.
  intro Hl; specialize (H4 Hl); lra.
Qed.

Lemma borne_pas_decroit K W e e' : borne_pas K W e e' -> e_score e' <= e_score e.
Proof.
  intros (l & w & _ & _ & _ & _ & H5 & H6 & H7).
  destruct l as [|x l]; [destruct w as [|y w]|].
  - rewrite H5 by reflexivity; apply Qle_refl.
  - assert (H : y :: w <> []) by discriminate; specialize (H7 H); lra.
  - assert (H : x :: l <> []) by discriminate; specialize (H6 H); lra.
Qed.

Lemma borne_pas_trans K1 W1 K2 W2 e1 e2 e3 :
  borne_pas K1 W1 e1 e2 -> borne_pas K2 W2 e2 e3 -> borne_pas (K1 + K2) (W1 + W2) e1 e3.
Proof.
  intros B1 B2.
  pose proof (borne_pas_decroit _ _ _ _ B1) as D1.
  pose proof (borne_pas_decroit _ _ _ _ B2) as D2.
  destruct B1 as (l1 & w1 & A1 & V1 & K1b & W1b & Z1 & E1 & F1).
  destruct B2 as (l2 & w2 & A2 & V2 & K2b & W2b & Z2 & E2 & F2).
  exists (l1 ++ l2), (w1 ++ w2); repeat split.
  - rewrite A2, A1, app_assoc; reflexivity.
  - rewrite V2, V1, app_assoc; reflexivity.
  - lra.
  - intro H; apply app_eq_nil in H as [-> ->].
    specialize (W1b eq_refl); specialize (W2b eq_refl); lra.
  - intros H H'; apply app_eq_nil in H as [-> ->]; apply app_eq_nil in H' as [-> ->].
    specialize (Z1 eq_refl eq_refl); specialize (Z2 eq_refl eq_refl); lra.
  - intro H; destruct l1 as [|x l1].
    + assert (l2 <> []) by (simpl in H; exact H); specialize (E2 H0); lra.
    + assert (x :: l1 <> []) by discriminate; specialize (E1 H0); lra.
  - intro H; destruct w1 as [|x w1].
    + assert (w2 <> []) by (simpl in H; exact H); specialize (F2 H0); lra.
    + assert (x :: w1 <> []) by discriminate; specialize (F1 H0); lra.
Qed.

Ltac prouve_borne :=
  casse_branches;
  first [ apply borne_pas_refl; q_arith
        | apply borne_pas_err; q_arith
        | apply borne_pas_warn; q_arith ].

Lemma etape2_borne a s t e : borne_pas 15 0 e (etape2 a s t e).
Proof. unfold etape2; prouve_borne. Qed.

Lemma etape3_borne t p e : borne_pas 15 5 e (etape3 t p e).
Proof. unfold etape3; prouve_borne. Qed.

Lemma etape4_tour_taille_borne t o e : borne_pas 10 0 e (etape4_tour_taille t o e).
Proof. unfold etape4_tour_taille, ratio_tour_taille_taille; prouve_borne. Qed.

Lemma etape4_envergure_borne t o e : borne_pas 10 3 e (etape4_envergure t o e).
Proof. unfold etape4_envergure, ratio_envergure_taille; prouve_borne. Qed.

Lemma etape4_jambe_borne t o e : borne_pas 10 0 e (etape4_jambe t o e).
Proof. unfold etape4_jambe, ratio_longueur_jambe_taille; prouve_borne. Qed.

(** Steps 5 and 6 are exclusive: one is for adults, the other for minors. *)
Lemma etapes_5_6_borne a s t p e : borne_pas 10 5 e (etape6 a s t p (etape5 a t p e)).
Proof.
  unfold etape5, etape6.
  destruct (Z.leb 18 a) eqn:Ha.
  - replace (Z.ltb a 18) with false by (symmetry; apply Z.ltb_ge; apply Z.leb_le in Ha; lia).
    prouve_borne.
  - replace (Z.ltb a 18) with true by (symmetry; apply Z.ltb_lt; apply Z.leb_gt in Ha; lia).
    prouve_borne.
Qed.

Lemma etape7_borne o o' e : borne_pas 10 0 e (etape7 o o' e).
Proof. unfold etape7; prouve_borne. Qed.

Lemma etape8_borne o o' e : borne_pas 10 0 e (etape8 o o' e).
Proof. unfold etape8; prouve_borne. Qed.

Lemma etapes_2_a_8_borne d a s t p e : borne_pas 90 13 e (etapes_2_a_8 d a s t p e).
Proof.
  unfold etapes_2_a_8.
  eapply borne_pas_mono; cycle 2.
  - eapply borne_pas_trans; [|apply etape8_borne].
    eapply borne_pas_trans; [|apply etape7_borne].
    eapply borne_pas_trans; [|apply etapes_5_6_borne].
    eapply borne_pas_trans; [|apply etape4_jambe_borne].
    eapply borne_pas_trans; [|apply etape4_envergure_borne].
    eapply borne_pas_trans; [|apply etape4_tour_taille_borne].
    eapply borne_pas_trans; [apply etape2_borne | apply etape3_borne].
  - q_arith.
  - q_arith.
Qed.

Lemma etape1_spec a s t p e :
  e_erreurs (etape1 a s t p e) = e_erreurs e ++ erreurs_etape1 a s t p /\
  e_avertissements (etape1 a s t p e) = e_avertissements e /\
  e_score (etape1 a s t p e)
    == e_score e - 20 * inject_Z (Z.of_nat (List.length (erreurs_etape1 a s t p))).
Proof.
  unfold etape1, erreurs_etape1; casse_branches; simpl;
    (split; [rewrite ?app_nil_r, <- ?app_assoc; reflexivity | split; [reflexivity | unfold inject_Z; lra]]).
Qed.

Lemma erreurs_etape1_length a s t p : (List.length (erreurs_etape1 a s t p) <= 4)%nat.
Proof. unfold erreurs_etape1; casse_branches; simpl; lia. Qed.

Lemma clamp_id s : 0 <= s -> s <= 100 -> Qmax 0 (Qmin 100 s) == s.
Proof.
  intros H0 H1.
  rewrite (Q.min_r 100 s H1); apply Q.max_r; exact H0.
Qed.

Lemma nat_Q_pos (n : nat) : 0 <= inject_Z (Z.of_nat n).
Proof. change 0 with (inject_Z 0); rewrite <- Zle_Qle; lia. Qed.

Lemma nat_Q_le (n m : nat) : (n <= m)%nat -> inject_Z (Z.of_nat n) <= inject_Z (Z.of_nat m).
Proof. intro H; rewrite <- Zle_Qle; lia. Qed.

(** After Step 0 without error the accumulator is still the initial one. *)
Lemma etape0_propre d :
  a_des_erreurs (verifier_champs_requis d etat_initial) = false ->
  manquants d = [] /\
  e_erreurs (verifier_champs_requis d etat_initial) = [] /\
  e_avertissements (verifier_champs_requis d etat_initial) = [] /\
  e_score (verifier_champs_requis d etat_initial) == 100.
Proof.
  intro H0; destruct (verifier_champs_requis_spec d) as (H1 & H2 & H3).
  assert (Hm : manquants d = []).
  { unfold a_des_erreurs in H0; rewrite H1 in H0; destruct (manquants d); [reflexivity | discriminate]. }
  rewrite Hm in H1, H3; simpl in H3; repeat split; auto; lra.
Qed.

(** The final return path: reached with an untouched accumulator, the
    score is never clamped and lies between 10 and 100. *)
Lemma chemin_final d a s t p e1 :
  e_erreurs e1 = [] -> e_avertissements e1 = [] -> e_score e1 == 100 ->
  let r := retour_final (etapes_2_a_8 d a s t p e1) in
  10 <= score_coherence r <= 100 /\
  (est_valide r = true <-> erreurs r = []) /\
  (erreurs r = [] -> 87 <= score_coherence r) /\
  (erreurs r <> [] -> score_coherence r <= 90) /\
  (score_coherence r == 100 <-> erreurs r = [] /\ avertissements r = []).
Proof.
  intros He Hw Hs r.
  destruct (etapes_2_a_8_borne d a s t p e1) as (l & w & A & V & K & W & Z0 & E & F).
  rewrite He in A; rewrite Hw in V; simpl in A, V.
  pose proof (etapes_2_a_8_decroit d a s t p e1) as D.
  set (e := etapes_2_a_8 d a s t p e1) in *.
  assert (Hsc : score_coherence r == e_score e) by (apply clamp_id; lra).
  assert (Her : erreurs r = l) by exact A.
  assert (Hav : avertissements r = w) by exact V.
  rewrite Hsc, Her, Hav.
  split; [lra|]. split; [|split; [|split]].
  - unfold r, retour_final; simpl; fold e; rewrite A; destruct l; split; congruence.
  - intro Hl; specialize (W Hl); lra.
  - intro Hl; specialize (E Hl); lra.
  - split.
    + intro H100; split.
      * destruct l as [|x l]; [reflexivity|].
        assert (x :: l <> []) by discriminate; specialize (E H); lra.
      * destruct w as [|y w]; [reflexivity|].
        assert (y :: w <> []) by discriminate; specialize (F H); lra.
    + intros [-> ->]; specialize (Z0 eq_refl eq_refl); lra.
Qed.

(** The early return after Step 1. *)
Lemma chemin_etape1 d a s t p :
  a_des_erreurs (verifier_champs_requis d etat_initial) = false ->
  let e1 := etape1 a s t p (verifier_champs_requis d etat_initial) in
  e_erreurs e1 = erreurs_etape1 a s t p /\ e_avertissements e1 = [] /\
  e_score e1 == 100 - 20 * inject_Z (Z.of_nat (List.length (erreurs_etape1 a s t p))).
Proof.
  intros H0 e1; destruct (etape0_propre d H0) as (_ & H1 & H2 & H3).
  destruct (etape1_spec a s t p (verifier_champs_requis d etat_initial)) as (A & B & C).
  fold e1 in A, B, C; rewrite H1 in A; rewrite H2 in B; rewrite H3 in C.
  repeat split; auto.
Qed.

Lemma chemin_retour_etape0 d :
  a_des_erreurs (verifier_champs_requis d etat_initial) = true ->
  let r := retour_anticipe (verifier_champs_requis d etat_initial) in
  erreurs r <> [] /\ est_valide r = false /\ 0 <= score_coherence r <= 75 /\
  (score_coherence r == 0 <-> List.length (manquants d) = 4%nat).
Proof.
  intros H0 r.
  destruct (verifier_champs_requis_spec d) as (H1 & _ & H3).
  assert (Hne : manquants d <> []).
  { intro Hm; unfold a_des_erreurs in H0; rewrite H1, Hm in H0; discriminate. }
  assert (Hk1 : (1 <= List.length (manquants d))%nat)
    by (destruct (manquants d); [congruence | simpl; lia]).
  pose proof (manquants_length d) as Hk4.
  assert (Hs : score_coherence r
               == Qmax 0 (100 - 25 * inject_Z (Z.of_nat (List.length (manquants d)))))
    by (unfold r; simpl; rewrite H3; reflexivity).
  pose proof (nat_Q_le _ _ Hk1) as Q1.
  split; [unfold r; simpl; rewrite H1; destruct (manquants d); [congruence | discriminate]|].
  split; [reflexivity|].
  split; [split; [apply Q.le_max_l | rewrite Hs; apply Q.max_lub; [q_arith | simpl in Q1; change (inject_Z 1) with 1 in Q1; lra]]|].
  rewrite Hs; split.
  - intro Hz; destruct (Nat.eq_dec (List.length (manquants d)) 4) as [E|E]; [exact E|].
    assert (Hk3 : (List.length (manquants d) <= 3)%nat) by lia.
    pose proof (nat_Q_le _ _ Hk3) as Q3; simpl in Q3; change (inject_Z 3) with 3 in Q3.
    pose proof (Q.le_max_r 0 (100 - 25 * inject_Z (Z.of_nat (List.length (manquants d))))).
    exfalso; lra.
  - intro E; rewrite E; reflexivity.
Qed.

Lemma chemin_retour_etape1 d a s t p :
  a_des_erreurs (verifier_champs_requis d etat_initial) = false ->
  a_des_erreurs (etape1 a s t p (verifier_champs_requis d etat_initial)) = true ->
  let r := retour_anticipe (etape1 a s t p (verifier_champs_requis d etat_initial)) in
  erreurs r = erreurs_etape1 a s t p /\ erreurs r <> [] /\ est_valide r = false /\
  avertissements r = [] /\ manquants d = [] /\
  score_coherence r == 100 - 20 * inject_Z (Z.of_nat (List.length (erreurs_etape1 a s t p))) /\
  20 <= score_coherence r <= 80.
Proof.
  intros H0 H1 r.
  destruct (chemin_etape1 d a s t p H0) as (A & B & C).
  destruct (etape0_propre d H0) as (Hm & _).
  assert (Hne : erreurs_etape1 a s t p <> []).
  { intro E; unfold a_des_erreurs in H1; rewrite A, E in H1; discriminate. }
  assert (Hk1 : (1 <= List.length (erreurs_etape1 a s t p))%nat)
    by (destruct (erreurs_etape1 a s t p); [congruence | simpl; lia]).
  pose proof (nat_Q_le _ _ Hk1) as Q1; simpl in Q1; change (inject_Z 1) with 1 in Q1.
  pose proof (nat_Q_le _ _ (erreurs_etape1_length a s t p)) as Q4; simpl in Q4;
    change (inject_Z 4) with 4 in Q4.
  assert (Hs : score_coherence r
               == 100 - 20 * inject_Z (Z.of_nat (List.length (erreurs_etape1 a s t p)))).
  { unfold r; simpl; rewrite C; apply Q.max_r; lra. }
  assert (Er : erreurs r = erreurs_etape1 a s t p) by (unfold r; simpl; exact A).
  assert (Wr : avertissements r = []) by (unfold r; simpl; exact B).
  split; [exact Er|]; split; [rewrite Er; exact Hne|]; split; [reflexivity|].
  split; [exact Wr|]; split; [exact Hm|]; split; [exact Hs|].
  rewrite Hs; split; lra.
Qed.

Lemma chemin_final_valider d a s0 t p :
  a_des_erreurs (verifier_champs_requis d etat_initial) = false ->
  a_des_erreurs (etape1 a (lower s0) t p (verifier_champs_requis d etat_initial)) = false ->
  let r := retour_final (etapes_2_a_8 d a (lower s0) t p
                           (etape1 a (lower s0) t p (verifier_champs_requis d etat_initial))) in
  manquants d = [] /\ erreurs_etape1 a (lower s0) t p = [] /\
  10 <= score_coherence r <= 100 /\
  (est_valide r = true <-> erreurs r = []) /\
  (erreurs r = [] -> 87 <= score_coherence r) /\
  (erreurs r <> [] -> score_coherence r <= 90) /\
  (score_coherence r == 100 <-> erreurs r = [] /\ avertissements r = []).
Proof.
  intros H0 H1 r.
  destruct (chemin_etape1 d a (lower s0) t p H0) as (A & B & C).
  destruct (etape0_propre d H0) as (Hm & _).
  assert (E : erreurs_etape1 a (lower s0) t p = []).
  { unfold a_des_erreurs in H1; rewrite A in H1; destruct (erreurs_etape1 _ _ _ _);
      [reflexivity | discriminate]. }
  rewrite E in A, C; simpl in C.
  split; [exact Hm|]; split; [exact E|].
  apply chemin_final; auto; lra.
Qed.

(** X1. The score is 100 exactly when the result reports neither an
    error nor a warning. *)
Theorem valider_donnees_score_100_ssi_rien_signale d :
  score_coherence (valider_donnees d) == 100 <->
  erreurs (valider_donnees d) = [] /\ avertissements (valider_donnees d) = [].
Proof.
  destruct (valider_donnees_cas d)
    as [[H R] | (a & s0 & t & p & _ & _ & _ & _ & H0 & [[H R] | [H R]])]; rewrite R.
  - destruct (chemin_retour_etape0 d H) as (Ne & _ & Sc & _).
    split; [intro E; exfalso; lra | intros [E _]; contradiction].
  - destruct (chemin_retour_etape1 d a (lower s0) t p H0 H) as (_ & Ne & _ & _ & _ & _ & Sc).
    split; [intro E; exfalso; lra | intros [E _]; contradiction].
  - exact (proj2 (proj2 (proj2 (proj2 (proj2 (proj2 (chemin_final_valider d a s0 t p H0 H))))))).
Qed.

(** X2. A valid result scores at least 87 (only warnings, at most one
    BMI, one arm-span and one child-weight warning, can lower it), and
    an invalid result scores at most 90. *)
Theorem valider_donnees_score_selon_validite d :
  (est_valide (valider_donnees d) = true -> 87 <= score_coherence (valider_donnees d)) /\
  (est_valide (valider_donnees d) = false -> score_coherence (valider_donnees d) <= 90).
Proof.
  destruct (valider_donnees_cas d)
    as [[H R] | (a & s0 & t & p & _ & _ & _ & _ & H0 & [[H R] | [H R]])]; rewrite R.
  - destruct (chemin_retour_etape0 d H) as (_ & V & Sc & _).
    split; intro E; [congruence | lra].
  - destruct (chemin_retour_etape1 d a (lower s0) t p H0 H) as (_ & _ & V & _ & _ & _ & Sc).
    split; intro E; [congruence | lra].
  - destruct (chemin_final_valider d a s0 t p H0 H) as (_ & _ & _ & V & L & U & _).
    split; intro E.
    + apply L, V, E.
    + apply U; intro N; apply V in N; congruence.
Qed.


(** X4. With the four required fields present, when some base value is
    out of bounds (age outside [0, 120], lowered sex not "homme"/"femme",
    height outside (0, 300], weight outside (0, 500]), the result is the
    early return after Step 1: not valid, exactly the Step-1 errors in
    the order age, sex, height, weight, no warning, and score 100 - 20 k
    for k such errors. *)
Theorem valider_donnees_retour_etape1 d a s0 t p :
  age d = Some a -> sexe d = Some s0 -> taille d = Some t -> poids d = Some p ->
  erreurs_etape1 a (lower s0) t p <> [] ->
  est_valide (valider_donnees d) = false /\
  erreurs (valider_donnees d) = erreurs_etape1 a (lower s0) t p /\
  avertissements (valider_donnees d) = [] /\
  score_coherence (valider_donnees d)
    == 100 - 20 * inject_Z (Z.of_nat (List.length (erreurs_etape1 a (lower s0) t p))).
Proof.
  intros Ha Hs Ht Hp Hne.
  assert (H0 : a_des_erreurs (verifier_champs_requis d etat_initial) = false).
  { destruct (verifier_champs_requis_spec d) as (H1 & _).
    unfold a_des_erreurs; rewrite H1.
    unfold manquants, champs_requis, champ_manquant; simpl; rewrite Ha, Hs, Ht, Hp; reflexivity. }
  destruct (chemin_etape1 d a (lower s0) t p H0) as (A & _).
  assert (H1 : a_des_erreurs (etape1 a (lower s0) t p (verifier_champs_requis d etat_initial)) = true).
  { unfold a_des_erreurs; rewrite A; destruct (erreurs_etape1 _ _ _ _); [congruence | reflexivity]. }
  destruct (chemin_retour_etape1 d a (lower s0) t p H0 H1) as (E & _ & V & W & _ & S & _).
  unfold valider_donnees; rewrite H0, Ha, Hs, Ht, Hp, H1.
  repeat split; auto.
Qed.



Lemma sq_taille_pos t : 0 < t -> 0 < sq (t / 100).
Proof.
  intro Ht; assert (H100 : 0 < t / 100) by (apply Qlt_shift_div_l; [reflexivity | lra]).
  unfold sq; apply Qmult_lt_0_compat; exact H100.
Qed.

Lemma div_lt_iff p x c : 0 < x -> (p / x < c <-> p < c * x).
Proof.
  intro Hx; split; intro H.
  - apply (Qmult_lt_r _ _ x Hx) in H.
    rewrite (Qmult_comm (p / x)), Qmult_div_r in H; [exact H|].
    intro E; rewrite E in Hx; discriminate.
  - apply Qlt_shift_div_r; assumption.
Qed.

Lemma lt_div_iff p x c : 0 < x -> (c < p / x <-> c * x < p).
Proof.
  intro Hx; split; intro H.
  - apply (Qmult_lt_r _ _ x Hx) in H.
    rewrite (Qmult_comm (p / x)), Qmult_div_r in H; [exact H|].
    intro E; rewrite E in Hx; discriminate.
  - apply Qlt_shift_div_l; assumption.
Qed.

Lemma etape3_signale t p e :
  imc_de t p < 13 \/ 40 < imc_de t p -> etape3 t p e <> e.
Proof.
  intro H; unfold etape3.
  destruct (Qltb (imc_de t p) 10 || Qltb 50 (imc_de t p))%bool;
    [apply ajouter_erreur_neq_self|].
  rewrite (proj2 (ou_ltb_true _ _ _ _) H); apply ajouter_avertissement_neq_self.
Qed.

(** X6. For an adult (age >= 18) of positive height, the adult
    weight-for-height check of Step 5 fires exactly when the BMI is below
    12.8 (= 0.8 x 16) or above 42 (= 1.2 x 35), and leaves the state
    unchanged otherwise; whenever it fires, the BMI check of Step 3 also
    reports an error or a warning for the same record. *)
Theorem etape5_selon_imc a t p e :
  (18 <= a)%Z -> 0 < t ->
  (etape5 a t p e
     = ajouter_erreur (ErrPoidsAdulte t p (16 * sq (t / 100)) (35 * sq (t / 100))) 10 e
   <-> imc_de t p < 64 # 5 \/ 42 < imc_de t p) /\
  (etape5 a t p e = e <-> ~ (imc_de t p < 64 # 5 \/ 42 < imc_de t p)) /\
  (imc_de t p < 64 # 5 \/ 42 < imc_de t p -> forall e', etape3 t p e' <> e').
Proof.
  intros Ha Ht.
  pose proof (sq_taille_pos t Ht) as Hx.
  assert (Hc : (Qltb p (16 * sq (t / 100) * (8 # 10)) || Qltb (35 * sq (t / 100) * (12 # 10)) p)%bool
               = true <-> imc_de t p < 64 # 5 \/ 42 < imc_de t p).
  { rewrite ou_ltb_true; unfold imc_de.
    rewrite (div_lt_iff _ _ _ Hx), (lt_div_iff _ _ _ Hx).
    split; intros [L | L]; [left | right | left | right]; lra. }
  unfold etape5.
  replace (Z.leb 18 a) with true by (symmetry; apply Z.leb_le; exact Ha).
  split; [|split].
  - destruct (_ || _)%bool eqn:E.
    + split; [intros _; apply Hc; reflexivity | reflexivity].
    + split; [intro H; exfalso; eapply ajouter_erreur_neq_self; symmetry; exact H|].
      intro C; apply Hc in C; discriminate.
  - destruct (_ || _)%bool eqn:E.
    + split; [intro H; exfalso; eapply ajouter_erreur_neq_self; exact H|].
      intro N; exfalso; apply N, Hc; reflexivity.
    + split; [intros _ C; apply Hc in C; discriminate | reflexivity].
  - intros [L | L] e'; apply etape3_signale; [left | right]; lra.
Qed.

Lemma estimer_poids_enfant_pos a t s :
  (0 <= a)%Z -> 0 < t -> 0 < _estimer_poids_enfant a t s.
Proof.
  intros Ha Ht; unfold _estimer_poids_enfant.
  destruct (Z.ltb a 2); [|destruct (Z.ltb a 12)].
  - unfold Qlt; simpl; lia.
  - unfold Qlt; simpl; lia.
  - apply Qmult_lt_0_compat; [reflexivity | apply sq_taille_pos; exact Ht].
Qed.

(** Single-band checks: a step that appends an error when [c] holds and
    does nothing otherwise. *)
Lemma une_bande (r : etat) e m d (c : Prop) (b : bool) :
  (b = true <-> c) ->
  r = (if b then ajouter_erreur m d e else e) ->
  (r = ajouter_erreur m d e <-> c) /\ (r = e <-> ~ c).
Proof.
  intros T ->; destruct b.
  - assert (C : c) by (apply T; reflexivity).
    split; split; intro H; auto.
    + exfalso; eapply ajouter_erreur_neq_self; exact H.
    + contradiction.
  - assert (C : ~ c) by (intro X; apply T in X; discriminate).
    split; split; intro H; auto.
    + exfalso; eapply ajouter_erreur_neq_self; symmetry; exact H.
    + contradiction.
Qed.

(** X7. For a minor (0 <= age < 18) of positive height, the child
    weight check of Step 6 appends its warning exactly when the weight is
    below half or above one and a half times the estimate of
    [_estimer_poids_enfant], and leaves the state unchanged otherwise. *)
Theorem etape6_selon_estimation a s t p e :
  (0 <= a < 18)%Z -> 0 < t ->
  let pa := _estimer_poids_enfant a t s in
  (etape6 a s t p e = ajouter_avertissement (WarnPoidsEnfant p pa) 5 e
   <-> p < (1 # 2) * pa \/ (3 # 2) * pa < p) /\
  (etape6 a s t p e = e <-> ~ (p < (1 # 2) * pa \/ (3 # 2) * pa < p)).
Proof.
  intros Ha Ht pa.
  assert (Hpa : 0 < pa) by (apply estimer_poids_enfant_pos; [lia | exact Ht]).
  assert (Hc : Qltb (1 # 2) (Qabs_ (p - pa) / pa) = true
               <-> p < (1 # 2) * pa \/ (3 # 2) * pa < p).
  { rewrite Qltb_true, (lt_div_iff _ _ _ Hpa); unfold Qabs_.
    destruct (Qltb (p - pa) 0) eqn:E; [apply Qltb_true in E | apply Qltb_false in E].
    - split; [intro H; left; lra | intros [L | L]; lra].
    - split; [intro H; right; lra | intros [L | L]; lra]. }
  unfold etape6.
  replace (Z.ltb a 18) with true by (symmetry; apply Z.ltb_lt; lia).
  fold pa.
  replace (truthy pa) with true
    by (symmetry; apply truthy_true; intro E; rewrite E in Hpa; discriminate).
  destruct (Qltb (1 # 2) (Qabs_ (p - pa) / pa)) eqn:E.
  - pose proof (proj1 Hc eq_refl) as C; split; split; intro H; auto.
    + exfalso; eapply ajouter_avertissement_neq_self; exact H.
    + contradiction.
  - assert (N : ~ (p < (1 # 2) * pa \/ (3 # 2) * pa < p)) by (intro X; apply Hc in X; congruence).
    split; split; intro H; auto.
    + exfalso; eapply ajouter_avertissement_neq_self; symmetry; exact H.
    + contradiction.
Qed.

Lemma ratio_hors_plage v t lo hi :
  0 < t ->
  ((Qltb (v / t) lo || Qltb hi (v / t))%bool = true <-> v < lo * t \/ hi * t < v).
Proof.
  intro Ht; rewrite ou_ltb_true, (div_lt_iff _ _ _ Ht), (lt_div_iff _ _ _ Ht); tauto.
Qed.

(** X8. For a positive height, a present non-zero waist (resp. leg
    length) gets the ratio error of Step 4 exactly when it is below 0.35
    (resp. 0.45) times the height or above 0.55 (resp. 0.53) times the
    height, and otherwise leaves the state unchanged; an absent or zero
    measurement is skipped. *)
Theorem etape4_tour_taille_jambe_bornes t v x e :
  0 < t -> ~ v == 0 -> ~ x == 0 ->
  (etape4_tour_taille t (Some v) e
     = ajouter_erreur (ErrRatioTourTaille (v / t) (35 # 100) (55 # 100)) 10 e
   <-> v < (35 # 100) * t \/ (55 # 100) * t < v) /\
  (etape4_tour_taille t (Some v) e = e <-> ~ (v < (35 # 100) * t \/ (55 # 100) * t < v)) /\
  (etape4_jambe t (Some x) e
     = ajouter_erreur (ErrRatioJambe (x / t) (45 # 100) (53 # 100)) 10 e
   <-> x < (45 # 100) * t \/ (53 # 100) * t < x) /\
  (etape4_jambe t (Some x) e = e <-> ~ (x < (45 # 100) * t \/ (53 # 100) * t < x)) /\
  etape4_tour_taille t (Some 0) e = e /\ etape4_tour_taille t None e = e /\
  etape4_jambe t (Some 0) e = e /\ etape4_jambe t None e = e.
Proof.
  intros Ht Hv Hx.
  destruct (une_bande (etape4_tour_taille t (Some v) e) e
              (ErrRatioTourTaille (v / t) (35 # 100) (55 # 100)) 10
              (v < (35 # 100) * t \/ (55 # 100) * t < v)
              (Qltb (v / t) (35 # 100) || Qltb (55 # 100) (v / t)))
    as [A1 A2]; [apply ratio_hors_plage, Ht | |].
  { unfold etape4_tour_taille, ratio_tour_taille_taille.
    rewrite (proj2 (truthy_true v) Hv); reflexivity. }
  destruct (une_bande (etape4_jambe t (Some x) e) e
              (ErrRatioJambe (x / t) (45 # 100) (53 # 100)) 10
              (x < (45 # 100) * t \/ (53 # 100) * t < x)
              (Qltb (x / t) (45 # 100) || Qltb (53 # 100) (x / t)))
    as [B1 B2]; [apply ratio_hors_plage, Ht | |].
  { unfold etape4_jambe, ratio_longueur_jambe_taille.
    rewrite (proj2 (truthy_true x) Hx); reflexivity. }
  repeat (split; [assumption|]).
  repeat split; reflexivity.
Qed.

(** X9. The runs of [exemple_utilisation]: example 2 (a girl of 8,
    180 cm, 30 kg) gets the height-for-age error and the extreme-BMI
    error, score 70; example 3 (a man of 180 cm, 50 kg, commented as too
    light) is valid with score 100; example 4 gets the arm-span and leg
    ratio errors, score 80; example 5 gets the waist and leg ratio errors
    and both cross-measurement errors, score 60. *)
Theorem exemple_utilisation_resultats :
  valider_donnees donnees2
    = mkResult false [ErrTailleAgeSexe "femme" 8 180 103 142; ErrIMCExtreme (imc_de 180 30) 30 180]
               [] 70 /\
  valider_donnees donnees3 = mkResult true [] [] 100 /\
  valider_donnees donnees4
    = mkResult false [ErrRatioEnvergure (140 / 165) (98 # 100) (106 # 100);
                      ErrRatioJambe (100 / 165) (45 # 100) (53 # 100)] [] 80 /\
  valider_donnees donnees5
    = mkResult false [ErrRatioTourTaille (200 / 175) (35 # 100) (55 # 100);
                      ErrRatioJambe (180 / 175) (45 # 100) (53 # 100);
                      ErrTourTailleEnvergure 200 178; ErrJambeEnvergure 180 178] [] 60.
Proof. vm_compute; repeat split; reflexivity. Qed.

(** ** The further properties instantiated at concrete inputs *)

Lemma valider_donnees_retour_etape1_witness :
  erreurs (valider_donnees donnees_hors_bornes)
    = [ErrAge 130; ErrSexe "autre"; ErrPoids 600]%string /\
  score_coherence (valider_donnees donnees_hors_bornes) == 40.
Proof.
  destruct (valider_donnees_retour_etape1 donnees_hors_bornes 130 "Autre"%string 180 600)
    as (_ & E & _ & S); [reflexivity | reflexivity | reflexivity | reflexivity
                        | vm_compute; discriminate |].
  split; [rewrite E; vm_compute; reflexivity | rewrite S; vm_compute; reflexivity].
Defined.


Lemma etape5_selon_imc_witness :
  etape5 30 180 40 etat_initial
    = ajouter_erreur (ErrPoidsAdulte 180 40 (16 * sq (180 / 100)) (35 * sq (180 / 100))) 10
                     etat_initial.
Proof.
  apply (proj1 (etape5_selon_imc 30 180 40 etat_initial ltac:(lia) ltac:(q_arith))).
  left; vm_compute; reflexivity.
Defined.

Lemma etape6_selon_estimation_witness :
  etape6 8 "femme" 130 50 etat_initial
    = ajouter_avertissement (WarnPoidsEnfant 50 (_estimer_poids_enfant 8 130 "femme")) 5
                            etat_initial.
Proof.
  apply (proj1 (etape6_selon_estimation 8 "femme" 130 50 etat_initial ltac:(lia) ltac:(q_arith))).
  right; vm_compute; reflexivity.
Defined.

Lemma etape4_tour_taille_jambe_bornes_witness :
  etape4_tour_taille 175 (Some 200) etat_initial
    = ajouter_erreur (ErrRatioTourTaille (200 / 175) (35 # 100) (55 # 100)) 10 etat_initial.
Proof.
  apply (proj1 (etape4_tour_taille_jambe_bornes 175 200 180 etat_initial
                  ltac:(q_arith) ltac:(q_arith) ltac:(q_arith))).
  right; vm_compute; reflexivity.
Defined.
